(** * Sales order aggregate: state machine and price accumulation

    A shallow embedding of [src/sales/domain/model/sales-order.ts],
    [src/sales/domain/model/sales-order-item.ts] and
    [src/crm/domain/model/customer.ts], followed by the properties of the
    aggregate.

    Conventions of the embedding.
    - A JavaScript [number] is an IEEE 754 binary64 value: Rocq's primitive
      [float].  [quantity <= 0] is [PrimFloat.leb], which is [false] on NaN
      exactly as in JavaScript.
    - A JavaScript string is a [string]; every character stands for one
      UTF-16 code unit below 256.
    - A method is a computation over the receiver and the outside world.  A
      [throw] keeps whatever the method had written before it: the state
      after a failed call is part of the result, so that "the order is left
      unchanged" is a statement to be proved and not a consequence of the
      types.
    - [uuidv4()] and the system clock are the two inputs from the outside
      world. *)

From Stdlib Require Import ZArith NArith Bool List String Ascii Lia.
From Stdlib Require Import DecimalString DecimalN.
From Stdlib Require Import Floats.PrimFloat Floats.FloatOps Floats.SpecFloat.
From Stdlib Require Import Floats.FloatAxioms.
Import ListNotations.

Local Open Scope string_scope.
Local Open Scope list_scope.

(** ** JavaScript values used by the source *)

Module Js.

(** The code units below 256 that [String.prototype.trim] removes: TAB, LF,
    VT, FF, CR, SPACE and NO-BREAK SPACE. *)
Definition isWhiteSpace (c : ascii) : bool :=
  match N_of_ascii c with
  | 9%N | 10%N | 11%N | 12%N | 13%N | 32%N | 160%N => true
  | _ => false
  end.

Fixpoint trimStart (s : string) : string :=
  match s with
  | EmptyString => EmptyString
  | String c r => if isWhiteSpace c then trimStart r else s
  end.

Fixpoint trimEnd (s : string) : string :=
  match s with
  | EmptyString => EmptyString
  | String c r =>
      match trimEnd r with
      | EmptyString => if isWhiteSpace c then EmptyString else String c EmptyString
      | r' => String c r'
      end
  end.

(** [s.trim()] *)
Definition trim (s : string) : string := trimEnd (trimStart s).

(** [!s] for a string [s]: only the empty string is falsy. *)
Definition not_ (s : string) : bool :=
  match s with
  | EmptyString => true
  | String _ _ => false
  end.

(** [s.includes(sub)] *)
Fixpoint includes (s sub : string) : bool :=
  if prefix sub s then true
  else match s with
       | EmptyString => false
       | String _ r => includes r sub
       end.

(** [Number.isInteger(x)], read off the binary64 decomposition
    [mantissa * 2 ^ exponent]. *)
Definition isInteger (x : float) : bool :=
  match Prim2SF x with
  | S754_zero _ => true
  | S754_finite _ m e => (0 <=? e)%Z || (Z.pos m mod 2 ^ (- e) =? 0)%Z
  | S754_infinity _ => false
  | S754_nan => false
  end.

End Js.

(** ** Errors *)

(** The kinds of failure the specification distinguishes. *)
Inductive ErrorKind : Type :=
| InvalidArgument
| IllegalStateTransition
| CurrencyMismatch.

(** A thrown value.  [JsError m] is [new Error(m)] as written in the source.
    [CollaboratorError k] is a failure raised inside Money or DateTime, whose
    sources are not part of the model: of those only the kind is known. *)
Inductive Error : Type :=
| JsError (message : string)
| CollaboratorError (k : ErrorKind).

(** ** Computations that may throw *)

Inductive Completion (A : Type) : Type :=
| Normal (a : A)
| Throw (e : Error).

Arguments Normal {A} a.
Arguments Throw {A} e.

Definition Exec (S A : Type) : Type := S -> Completion A * S.

Definition ret {S A : Type} (a : A) : Exec S A := fun s => (Normal a, s).

Definition throw {S A : Type} (e : Error) : Exec S A := fun s => (Throw e, s).

Definition bind {S A B : Type} (m : Exec S A) (k : A -> Exec S B) : Exec S B :=
  fun s =>
    match m s with
    | (Normal a, s') => k a s'
    | (Throw e, s') => (Throw e, s')
    end.

Definition get {S : Type} : Exec S S := fun s => (Normal s, s).

Definition liftC {S A : Type} (c : Completion A) : Exec S A := fun s => (c, s).

Declare Scope exec_scope.
Delimit Scope exec_scope with exec.
Notation "x <- m ;; k" := (bind m (fun x => k))
  (at level 61, m at next level, right associativity) : exec_scope.
Notation "m ;; k" := (bind m (fun _ => k))
  (at level 61, right associativity) : exec_scope.
Local Open Scope exec_scope.

(** [array.reduce(f, init)] with a callback that may throw. *)
Fixpoint reduce {S A B : Type} (f : B -> A -> Exec S B) (l : list A) (init : B)
  : Exec S B :=
  match l with
  | [] => ret init
  | x :: r => (acc <- f init x ;; reduce f r acc)
  end.

(** ** The outside world *)

(** The clock in milliseconds since the epoch, and the source of [uuidv4()]:
    the [uuid_next]-th draw returns [uuid_source uuid_next]. *)
Record World : Type := mkWorld {
  clock : Z;
  uuid_source : N -> string;
  uuid_next : N
}.

Definition uuidv4 : Exec World string :=
  fun w => (Normal (uuid_source w (uuid_next w)),
            mkWorld (clock w) (uuid_source w) (N.succ (uuid_next w))).

(** ** Collaborators: Currency, Money, DateTime *)

Module Currency.

(** Modelled from the spec: [shared/domain/model/currency] is missing from
    the sources.  "An enumerated/validated currency code value": a value
    that carries its code; the sales order receives it already built. *)
Record t : Type := mk { code : string }.

Definition same (a b : t) : bool := String.eqb (code a) (code b).

End Currency.

Module Money.

(** Modelled from the spec: [shared/domain/model/money] is missing from the
    sources.  "Immutable amount+currency pair; supports addition and scalar
    multiplication; arithmetic between mismatched currencies must fail." *)
Record t : Type := mk { amount : float; currency : Currency.t }.

(** Modelled from the spec: [new Money(amount, currency)], the pair of its
    two arguments. *)
Definition new (amount : float) (currency : Currency.t) : t :=
  mk amount currency.

(** Modelled from the spec: [multiply(scalar) -> Money]. *)
Definition multiply (m : t) (scalar : float) : t :=
  new (amount m * scalar)%float (currency m).

(** Modelled from the spec: [add(Money) -> Money], "fails on currency
    mismatch" with a failure of kind CurrencyMismatch. *)
Definition add (m other : t) : Completion t :=
  if Currency.same (currency m) (currency other)
  then Normal (new (amount m + amount other)%float (currency m))
  else Throw (CollaboratorError CurrencyMismatch).

End Money.

Module DateTime.

(** Modelled from the spec: the argument [orderedAt?: Date | string] of the
    missing [shared/domain/model/date-time], after parsing: omitted, not
    denoting an instant ("not parseable"), or an instant in milliseconds
    since the epoch. *)
Inductive Arg : Type :=
| Omitted
| Unparseable
| Instant (ms : Z).

(** Modelled from the spec: "wraps a validated timestamp not in the
    future". *)
Record t : Type := mk { value : Z }.

(** Modelled from the spec: "constructed from an optional date/string,
    fails if invalid or in the future", "defaults orderedAt to current
    time"; the failure is of kind InvalidArgument. *)
Definition new (arg : Arg) : Exec World t :=
  fun w =>
    match arg with
    | Omitted => (Normal (mk (clock w)), w)
    | Unparseable => (Throw (CollaboratorError InvalidArgument), w)
    | Instant ms =>
        if (ms <=? clock w)%Z then (Normal (mk ms), w)
        else (Throw (CollaboratorError InvalidArgument), w)
    end.

End DateTime.

(** ** SalesOrderItem *)

Module SalesOrderItem.

Record t : Type := mk {
  _orderId : string;
  _itemId : string;
  _productId : string;
  _quantity : float;
  _unitPrice : Money.t
}.

(** [constructor(orderId, productId, quantity, unitPrice)] *)
Definition new (orderId productId : string) (quantity : float)
           (unitPrice : Money.t) : Exec World t :=
  itemId <- uuidv4 ;;
  ret (mk orderId itemId productId quantity unitPrice).

(** [calculateItemPrice = () => this._unitPrice.multiply(this._quantity)] *)
Definition calculateItemPrice (this : t) : Money.t :=
  Money.multiply (_unitPrice this) (_quantity this).

Definition productId (this : t) : string := _productId this.
Definition quantity (this : t) : float := _quantity this.
Definition unitPrice (this : t) : Money.t := _unitPrice this.

End SalesOrderItem.

(** ** SalesOrder *)

Inductive SalesOrderState : Type :=
| PENDING
| CONFIRMED
| SHIPPED
| CANCELLED.

(** The string a state is in the source, as interpolated by
    [`${this._state}`]. *)
Definition state_text (s : SalesOrderState) : string :=
  match s with
  | PENDING => "PENDING"
  | CONFIRMED => "CONFIRMED"
  | SHIPPED => "SHIPPED"
  | CANCELLED => "CANCELLED"
  end.

(** [a === b] on states. *)
Definition state_eqb (a b : SalesOrderState) : bool :=
  match a, b with
  | PENDING, PENDING | CONFIRMED, CONFIRMED
  | SHIPPED, SHIPPED | CANCELLED, CANCELLED => true
  | _, _ => false
  end.

Module SalesOrder.

Record t : Type := mk {
  _customerId : string;
  _id : string;
  _items : list SalesOrderItem.t;
  _orderedAt : DateTime.t;
  _currency : Currency.t;
  _state : SalesOrderState
}.

(** The receiver of a method call together with the outside world. *)
Record Frame : Type := mkFrame { world : World; this : t }.

(** Run a computation on the world inside a method. *)
Definition inWorld {A : Type} (m : Exec World A) : Exec Frame A :=
  fun f =>
    match m (world f) with
    | (c, w') => (c, mkFrame w' (this f))
    end.

(** The order [o] with its [_state] field overwritten. *)
Definition with_state (o : t) (s : SalesOrderState) : t :=
  mk (_customerId o) (_id o) (_items o) (_orderedAt o) (_currency o) s.

(** The order [o] with [item] pushed at the end of its [_items] array. *)
Definition with_pushed (o : t) (item : SalesOrderItem.t) : t :=
  mk (_customerId o) (_id o) (_items o ++ [item]) (_orderedAt o)
     (_currency o) (_state o).

(** [this._state = s] *)
Definition set_state (s : SalesOrderState) : Exec Frame unit :=
  fun f => (Normal tt, mkFrame (world f) (with_state (this f) s)).

(** [this._items.push(item)] *)
Definition items_push (item : SalesOrderItem.t) : Exec Frame unit :=
  fun f => (Normal tt, mkFrame (world f) (with_pushed (this f) item)).

(** [constructor(customerId, currency, orderedAt?)].  The object under
    construction cannot be reached by anyone before the constructor
    returns, so its fields are given together at the end; the order of the
    effects (the check, the draw of the identifier, the validation of the
    date) is the source's. *)
Definition new (customerId : string) (currency : Currency.t)
           (orderedAt : DateTime.Arg) : Exec World t :=
  if Js.not_ customerId || String.eqb (Js.trim customerId) EmptyString
  then throw (JsError "Customer ID cannot be empty")
  else
    id <- uuidv4 ;;
    orderedAt' <- DateTime.new orderedAt ;;
    ret (mk (Js.trim customerId) id [] orderedAt' currency PENDING).

Definition id (o : t) : string := _id o.
Definition customerId (o : t) : string := _customerId o.
Definition orderedAt (o : t) : DateTime.t := _orderedAt o.
Definition currency (o : t) : Currency.t := _currency o.
Definition state (o : t) : SalesOrderState := _state o.

(** [canAddItems()] *)
Definition canAddItems : Exec Frame bool :=
  f <- get ;;
  ret (negb (state_eqb (_state (this f)) CANCELLED)
       && negb (state_eqb (_state (this f)) SHIPPED)).

(** [addItem(productId, quantity, unitPriceAmount)] *)
Definition addItem (productId : string) (quantity unitPriceAmount : float)
  : Exec Frame unit :=
  if Js.not_ productId || String.eqb (Js.trim productId) EmptyString
  then throw (JsError "Product ID cannot be empty")
  else if (quantity <=? 0)%float
  then throw (JsError "Quantity must be greater than zero")
  else
    allowed <- canAddItems ;;
    if negb allowed
    then
      f <- get ;;
      throw (JsError ("Cannot add items to a " ++ state_text (_state (this f))
                      ++ " order"))
    else
      f <- get ;;
      let unitPrice := Money.new unitPriceAmount (_currency (this f)) in
      item <- inWorld (SalesOrderItem.new (_id (this f)) (Js.trim productId)
                         quantity unitPrice) ;;
      items_push item.

(** [calculateTotalPrice()] *)
Definition calculateTotalPrice : Exec Frame Money.t :=
  f <- get ;;
  reduce
    (fun total item =>
       liftC (Money.add total (SalesOrderItem.calculateItemPrice item)))
    (_items (this f))
    (Money.new 0%float (_currency (this f))).

(** [confirm()] *)
Definition confirm : Exec Frame unit :=
  f <- get ;;
  if state_eqb (_state (this f)) PENDING
  then set_state CONFIRMED
  else throw (JsError ("Cannot confirm an order that is "
                       ++ state_text (_state (this f)))).

(** [ship()] *)
Definition ship : Exec Frame unit :=
  f <- get ;;
  if state_eqb (_state (this f)) CONFIRMED
  then set_state SHIPPED
  else throw (JsError ("Cannot ship an order that is "
                       ++ state_text (_state (this f)))).

(** [cancel()] *)
Definition cancel : Exec Frame unit :=
  f <- get ;;
  if state_eqb (_state (this f)) SHIPPED
     || state_eqb (_state (this f)) CANCELLED
  then throw (JsError ("Cannot cancel an order that is "
                       ++ state_text (_state (this f))))
  else set_state CANCELLED.

End SalesOrder.

(** ** Vocabulary of the specification *)

(** [!s || s.trim() === ''], the test the source applies to identifiers. *)
Definition blank (s : string) : bool :=
  Js.not_ s || String.eqb (Js.trim s) EmptyString.

Definition all_states : list SalesOrderState :=
  [PENDING; CONFIRMED; SHIPPED; CANCELLED].

(** The messages of the source that report an invalid argument. *)
Definition invalid_argument_messages : list string :=
  ["Customer ID cannot be empty";
   "Product ID cannot be empty";
   "Quantity must be greater than zero"].

(** The messages of the source that report an operation refused because of
    the current state, for a given state. *)
Definition illegal_transition_messages_for (s : SalesOrderState) : list string :=
  [("Cannot add items to a " ++ state_text s ++ " order")%string;
   ("Cannot confirm an order that is " ++ state_text s)%string;
   ("Cannot ship an order that is " ++ state_text s)%string;
   ("Cannot cancel an order that is " ++ state_text s)%string].

(** The kind of a thrown value in the taxonomy of the specification. *)
Definition kindOf (e : Error) : option ErrorKind :=
  match e with
  | CollaboratorError k => Some k
  | JsError m =>
      if existsb (String.eqb m) invalid_argument_messages
      then Some InvalidArgument
      else if existsb (String.eqb m)
                (flat_map illegal_transition_messages_for all_states)
      then Some IllegalStateTransition
      else None
  end.

(** The three state-changing requests. *)
Inductive Transition : Type :=
| Confirm
| Ship
| Cancel.

Definition transition (t : Transition) : Exec SalesOrder.Frame unit :=
  match t with
  | Confirm => SalesOrder.confirm
  | Ship => SalesOrder.ship
  | Cancel => SalesOrder.cancel
  end.

(** The edges as the specification lists them: PENDING -> CONFIRMED ->
    SHIPPED by confirm and ship, PENDING | CONFIRMED -> CANCELLED by
    cancel. *)
Definition edge (t : Transition) (s : SalesOrderState) : option SalesOrderState :=
  match t, s with
  | Confirm, PENDING => Some CONFIRMED
  | Ship, CONFIRMED => Some SHIPPED
  | Cancel, PENDING => Some CANCELLED
  | Cancel, CONFIRMED => Some CANCELLED
  | _, _ => None
  end.

(** The states in which the specification lets items be appended. *)
Definition permits_items (s : SalesOrderState) : bool :=
  match s with
  | CANCELLED | SHIPPED => false
  | PENDING | CONFIRMED => true
  end.

(** A call of a public method on an order. *)
Inductive Call : Type :=
| CallAddItem (productId : string) (quantity unitPriceAmount : float)
| CallCalculateTotalPrice
| CallConfirm
| CallShip
| CallCancel.

Definition invoke (c : Call) : Exec SalesOrder.Frame unit :=
  match c with
  | CallAddItem p q u => SalesOrder.addItem p q u
  | CallCalculateTotalPrice => (SalesOrder.calculateTotalPrice ;; ret tt)
  | CallConfirm => SalesOrder.confirm
  | CallShip => SalesOrder.ship
  | CallCancel => SalesOrder.cancel
  end.

(** The orders a program can hold: the fields are private, so an order is
    what the constructor returned, after any number of method calls, each in
    any world, failed calls included. *)
Inductive Reachable : SalesOrder.t -> Prop :=
| Reachable_new (customerId : string) (currency : Currency.t)
    (orderedAt : DateTime.Arg) (w w' : World) (o : SalesOrder.t) :
    SalesOrder.new customerId currency orderedAt w = (Normal o, w') ->
    Reachable o
| Reachable_call (c : Call) (w : World) (o : SalesOrder.t) :
    Reachable o ->
    Reachable (SalesOrder.this (snd (invoke c (SalesOrder.mkFrame w o)))).

(** "orderedAt valid and not in the future", an omitted argument standing for
    the current time. *)
Definition valid_orderedAt (w : World) (arg : DateTime.Arg) : Prop :=
  match arg with
  | DateTime.Omitted => True
  | DateTime.Unparseable => False
  | DateTime.Instant ms => (ms <= clock w)%Z
  end.

(** The price of a line in the words of the specification: quantity times
    unit price. *)
Definition subtotal (item : SalesOrderItem.t) : float :=
  (SalesOrderItem.quantity item * Money.amount (SalesOrderItem.unitPrice item))%float.

(** The sum of the lines, from zero, in the order of the items. *)
Definition sum_of_subtotals (items : list SalesOrderItem.t) : float :=
  fold_left (fun acc item => (acc + subtotal item)%float) items 0%float.

(** "Positive integer." *)
Definition positive_integer (x : float) : bool :=
  (0 <? x)%float && Js.isInteger x.

(** [Number.isNaN(x)]: NaN is the only number different from itself. *)
Definition isNaN (x : float) : bool := negb (x =? x)%float.

(** What every item of an order satisfies. *)
Definition item_ok (o : SalesOrder.t) (item : SalesOrderItem.t) : Prop :=
  Money.currency (SalesOrderItem._unitPrice item) = SalesOrder._currency o
  /\ (SalesOrderItem._quantity item <=? 0)%float = false
  /\ SalesOrderItem._orderId item = SalesOrder._id o.

(** ** Sample data: the scenarios of the demonstration script *)

Definition sample_world : World :=
  mkWorld 1700000000000
    (fun n => ("uuid-" ++ NilEmpty.string_of_uint (N.to_uint n))%string) 0.

Definition USD : Currency.t := Currency.mk "USD".

(** The calls of a script, one after the other; a call that throws leaves
    the frame it reached. *)
Definition after (calls : list Call) (f : SalesOrder.Frame) : SalesOrder.Frame :=
  fold_left (fun f c => snd (invoke c f)) calls f.

(** [new SalesOrder("C-1", usd)] on the sample world. *)
Definition fresh_order : SalesOrder.t :=
  SalesOrder.mk "C-1" "uuid-0" [] (DateTime.mk 1700000000000) USD PENDING.

Definition fresh_frame : SalesOrder.Frame :=
  SalesOrder.mkFrame (mkWorld 1700000000000 (uuid_source sample_world) 1)
    fresh_order.

(** The first scenario: two lines, then confirm. *)
Definition scenario_calls : list Call :=
  [CallAddItem "P001" 2 100; CallAddItem "P002" 20 50; CallConfirm].

Definition confirmed_order : SalesOrder.t :=
  SalesOrder.this (after scenario_calls fresh_frame).

Definition cancelled_order : SalesOrder.t :=
  SalesOrder.this (after [CallCancel] fresh_frame).

(** An order that was asked for half a unit. *)
Definition half_unit_order : SalesOrder.t :=
  SalesOrder.this (after [CallAddItem "P001" 0.5 100] fresh_frame).

(** The item of [half_unit_order]. *)
Definition half_unit_item : SalesOrderItem.t :=
  SalesOrderItem.mk "uuid-0" "uuid-1" "P001" 0.5 (Money.mk 100 USD).

(** ** Customer *)

Module Customer.

(** [_lastOrderPrice: Money | null]: [None] is [null]. *)
Record t : Type := mk {
  _id : string;
  _name : string;
  _lastOrderPrice : option Money.t
}.

(** [constructor(name)].  As for the sales order, the fields of the object
    under construction are given together at the end. *)
Definition new (name : string) : Exec World t :=
  if Js.not_ name || String.eqb (Js.trim name) EmptyString
  then throw (JsError "Customer name cannot be empty")
  else
    id <- uuidv4 ;;
    ret (mk id (Js.trim name) None).

Definition id (c : t) : string := _id c.
Definition name (c : t) : string := _name c.
Definition lastOrderPrice (c : t) : option Money.t := _lastOrderPrice c.

(** [set lastOrderPrice(newLastOrderPrice)] *)
Definition set_lastOrderPrice (newLastOrderPrice : Money.t) : Exec t unit :=
  fun c => (Normal tt, mk (_id c) (_name c) (Some newLastOrderPrice)).

End Customer.

(** ** Vocabulary of the further properties *)

(** The world after one draw of [uuidv4()]. *)
Definition after_draw (w : World) : World :=
  mkWorld (clock w) (uuid_source w) (N.succ (uuid_next w)).

(** How far a state is along the life of an order. *)
Definition rank (s : SalesOrderState) : nat :=
  match s with
  | PENDING => 0
  | CONFIRMED => 1
  | SHIPPED => 2
  | CANCELLED => 2
  end.

(** The identifiers an order holds: its own, then those of its items. *)
Definition identifiers (o : SalesOrder.t) : list string :=
  SalesOrder.id o :: map SalesOrderItem._itemId (SalesOrder._items o).

(** The messages a method can throw on an order in state [s]. *)
Definition method_messages (s : SalesOrderState) : list string :=
  ["Product ID cannot be empty"; "Quantity must be greater than zero"]
  ++ illegal_transition_messages_for s.

(** The identifiers of the order in [f] are draws of [source], the order's
    the earliest, all of them past and no two the same draw. *)
Definition drawn_from (source : N -> string) (f : SalesOrder.Frame) : Prop :=
  uuid_source (SalesOrder.world f) = source
  /\ exists k ns,
       SalesOrder._id (SalesOrder.this f) = source k
       /\ map SalesOrderItem._itemId (SalesOrder._items (SalesOrder.this f))
          = map source ns
       /\ (k < uuid_next (SalesOrder.world f))%N
       /\ Forall (fun n => (k < n < uuid_next (SalesOrder.world f))%N) ns
       /\ NoDup ns.

(** * Properties *)

Import SalesOrder.

(** ** The monad and the helpers *)

Lemma reduce_liftC_frame {S A B : Type} (g : B -> A -> Completion B)
      (l : list A) (init : B) (s : S) :
  snd (reduce (fun total x => liftC (g total x)) l init s) = s.
Proof.
  revert init; induction l as [|x r IH]; intros init; cbn.
  - reflexivity.
  - unfold bind, liftC. destruct (g init x) as [acc|e]; cbn; [apply IH|reflexivity].
Qed.

Lemma frame_eta (f : Frame) : f = mkFrame (world f) (this f).
Proof. destruct f; reflexivity. Qed.

Lemma calculateTotalPrice_frame (f : Frame) :
  snd (calculateTotalPrice f) = f.
Proof.
  unfold calculateTotalPrice, bind, get.
  apply (reduce_liftC_frame (S := Frame)).
Qed.

(** ** What each method does, case by case *)

Lemma addItem_cases (w : World) (o : t) (p : string) (q u : float) :
  addItem p q u (mkFrame w o) =
  if blank p
  then (Throw (JsError "Product ID cannot be empty"), mkFrame w o)
  else if (q <=? 0)%float
  then (Throw (JsError "Quantity must be greater than zero"), mkFrame w o)
  else if permits_items (_state o)
  then (Normal tt,
        mkFrame (mkWorld (clock w) (uuid_source w) (N.succ (uuid_next w)))
          (with_pushed o
             (SalesOrderItem.mk (_id o) (uuid_source w (uuid_next w))
                (Js.trim p) q (Money.new u (_currency o)))))
  else (Throw (JsError ("Cannot add items to a " ++ state_text (_state o)
                        ++ " order")), mkFrame w o).
Proof.
  unfold addItem, blank.
  destruct (Js.not_ p || String.eqb (Js.trim p) EmptyString); [reflexivity|].
  destruct (q <=? 0)%float; [reflexivity|].
  destruct o as [c i l d cur []]; reflexivity.
Qed.

Lemma transition_cases (tr : Transition) (w : World) (o : t) :
  transition tr (mkFrame w o) =
  match edge tr (_state o) with
  | Some s' => (Normal tt, mkFrame w (with_state o s'))
  | None =>
      (Throw (JsError (match tr with
                       | Confirm => "Cannot confirm an order that is "
                       | Ship => "Cannot ship an order that is "
                       | Cancel => "Cannot cancel an order that is "
                       end ++ state_text (_state o))), mkFrame w o)
  end.
Proof. destruct tr, o as [c i l d cur []]; reflexivity. Qed.

Lemma kindOf_refused_add (s : SalesOrderState) :
  kindOf (JsError ("Cannot add items to a " ++ state_text s ++ " order"))
  = Some IllegalStateTransition.
Proof. destruct s; reflexivity. Qed.

Lemma kindOf_refused_transition (tr : Transition) (s : SalesOrderState) :
  kindOf (JsError (match tr with
                   | Confirm => "Cannot confirm an order that is "
                   | Ship => "Cannot ship an order that is "
                   | Cancel => "Cannot cancel an order that is "
                   end ++ state_text s))
  = Some IllegalStateTransition.
Proof. destruct tr, s; reflexivity. Qed.

(** Every call leaves the order as it was, or changes its state only, or
    pushes one item only. *)
Lemma invoke_effect (c : Call) (w : World) (o : t) :
  let o' := this (snd (invoke c (mkFrame w o))) in
  o' = o
  \/ (exists s, o' = with_state o s)
  \/ (exists p q u itemId,
        c = CallAddItem p q u
        /\ (q <=? 0)%float = false
        /\ o' = with_pushed o
                  (SalesOrderItem.mk (_id o) itemId (Js.trim p) q
                     (Money.new u (_currency o)))).
Proof.
  destruct c as [p q u| | | |]; cbn [invoke].
  - rewrite addItem_cases.
    destruct (blank p); [left; reflexivity|].
    destruct (q <=? 0)%float eqn:Hq; [left; reflexivity|].
    destruct (permits_items (_state o)); [|left; reflexivity].
    right; right. exists p, q, u. eexists. cbn. auto.
  - left. unfold bind.
    pose proof (calculateTotalPrice_frame (mkFrame w o)) as H.
    destruct (calculateTotalPrice (mkFrame w o)) as [[m|e] f']; cbn in *;
      subst; reflexivity.
  - change confirm with (transition Confirm). rewrite transition_cases.
    destruct (edge Confirm (_state o)); cbn; eauto.
  - change ship with (transition Ship). rewrite transition_cases.
    destruct (edge Ship (_state o)); cbn; eauto.
  - change cancel with (transition Cancel). rewrite transition_cases.
    destruct (edge Cancel (_state o)); cbn; eauto.
Qed.

(** No call removes or rewrites an item: the items before the call are a
    prefix of the items after it. *)
Lemma invoke_items_prefix (c : Call) (w : World) (o : t) :
  exists more, _items (this (snd (invoke c (mkFrame w o)))) = _items o ++ more.
Proof.
  destruct (invoke_effect c w o) as [H|[[s H]|(p & q & u & i & _ & _ & H)]];
    rewrite H; cbn.
  - exists []. now rewrite app_nil_r.
  - exists []. now rewrite app_nil_r.
  - eexists. reflexivity.
Qed.

(** ** Reachability of the sample orders *)

Lemma fresh_order_built :
  SalesOrder.new "C-1" USD DateTime.Omitted sample_world
  = (Normal fresh_order, world fresh_frame).
Proof. reflexivity. Qed.

Lemma Reachable_after (calls : list Call) :
  forall f, Reachable (this f) -> Reachable (this (after calls f)).
Proof.
  induction calls as [|c r IH]; intros f Hf; cbn.
  - exact Hf.
  - apply IH. rewrite (frame_eta f). now apply Reachable_call.
Qed.

Lemma Reachable_fresh_order : Reachable fresh_order.
Proof. exact (Reachable_new _ _ _ _ _ _ fresh_order_built). Qed.

Lemma Reachable_confirmed_order : Reachable confirmed_order.
Proof. apply Reachable_after, Reachable_fresh_order. Qed.

Lemma Reachable_cancelled_order : Reachable cancelled_order.
Proof. apply Reachable_after, Reachable_fresh_order. Qed.

Lemma Reachable_half_unit_order : Reachable half_unit_order.
Proof. apply Reachable_after, Reachable_fresh_order. Qed.

Example confirmed_order_state : _state confirmed_order = CONFIRMED.
Proof. reflexivity. Qed.

Example confirmed_order_lines :
  map (fun i => (SalesOrderItem.productId i, SalesOrderItem.quantity i))
      (_items confirmed_order)
  = [("P001", 2%float); ("P002", 20%float)].
Proof. reflexivity. Qed.

Example confirm_twice_message :
  fst (confirm (mkFrame sample_world confirmed_order))
  = Throw (JsError "Cannot confirm an order that is CONFIRMED").
Proof. reflexivity. Qed.

Example trim_examples :
  Js.trim "  P001 " = "P001"
  /\ Js.trim "a b" = "a b"
  /\ Js.trim (String (ascii_of_N 9) (String (ascii_of_N 160) " ")) = EmptyString
  /\ blank EmptyString = true
  /\ blank "   " = true
  /\ blank " x" = false.
Proof. repeat split. Qed.

Example isInteger_examples :
  Js.isInteger 2 = true
  /\ Js.isInteger 0.5 = false
  /\ Js.isInteger (-3) = true
  /\ Js.isInteger nan = false
  /\ Js.isInteger infinity = false.
Proof. repeat split. Qed.

(** The second scenario of the script: one line, confirm, ship; the state is
    SHIPPED, the total 150, and a further confirm() throws. *)
Example shipped_scenario :
  let f := after [CallAddItem "P003" 1 150; CallConfirm; CallShip] fresh_frame in
  _state (this f) = SHIPPED
  /\ fst (calculateTotalPrice f) = Normal (Money.mk 150 USD)
  /\ confirm f
     = (Throw (JsError "Cannot confirm an order that is SHIPPED"), f).
Proof. repeat split. Qed.

(** ** The state machine *)

(** C1: the state transitions follow exactly the edges PENDING -> CONFIRMED
    -> SHIPPED and PENDING | CONFIRMED -> CANCELLED.  For each of confirm,
    ship and cancel and each order: when the specification has an edge from
    the current state, the call returns and the order differs from the one
    before in its state only, which is the target of the edge; in every
    other case the call throws an error of kind IllegalStateTransition and
    the order, state included, is the one before. *)
Theorem C1_transitions_follow_edges (tr : Transition) (w : World) (o : t) :
  match edge tr (_state o) with
  | Some s' =>
      transition tr (mkFrame w o) = (Normal tt, mkFrame w (with_state o s'))
      /\ _state (with_state o s') = s'
  | None =>
      exists e,
        transition tr (mkFrame w o) = (Throw e, mkFrame w o)
        /\ kindOf e = Some IllegalStateTransition
  end.
Proof.
  rewrite transition_cases.
  destruct (edge tr (_state o)) as [s'|].
  - split; reflexivity.
  - eexists; split; [reflexivity|apply kindOf_refused_transition].
Qed.

(** C7: confirm() is legal only from PENDING, where the state becomes
    CONFIRMED; from CONFIRMED, SHIPPED and CANCELLED it throws an error of
    kind IllegalStateTransition whose message contains the name of the
    current state, and the order is left as it was. *)
Theorem C7_confirm_only_from_pending (w : World) (o : t) :
  match _state o with
  | PENDING =>
      confirm (mkFrame w o) = (Normal tt, mkFrame w (with_state o CONFIRMED))
      /\ _state (with_state o CONFIRMED) = CONFIRMED
  | current =>
      exists msg,
        confirm (mkFrame w o) = (Throw (JsError msg), mkFrame w o)
        /\ kindOf (JsError msg) = Some IllegalStateTransition
        /\ msg = ("Cannot confirm an order that is " ++ state_text current)%string
        /\ Js.includes msg (state_text current) = true
  end.
Proof.
  destruct o as [c i l d cur []]; cbn [_state];
    first [ split; reflexivity
          | eexists; repeat split; reflexivity ].
Qed.

(** ** addItem *)

Lemma closed_state_forbids_items (o : t) :
  _state o = CANCELLED \/ _state o = SHIPPED -> permits_items (_state o) = false.
Proof. intros [H|H]; rewrite H; reflexivity. Qed.

(** C2, as the claim states it, fails: on a cancelled order a call of
    addItem with an empty product identifier throws "Product ID cannot be
    empty", an error of kind InvalidArgument and not of kind
    IllegalStateTransition. *)
Lemma C2_counterexample :
  Reachable cancelled_order
  /\ _state cancelled_order = CANCELLED
  /\ addItem EmptyString 1 1 (mkFrame sample_world cancelled_order)
     = (Throw (JsError "Product ID cannot be empty"),
        mkFrame sample_world cancelled_order)
  /\ kindOf (JsError "Product ID cannot be empty") = Some InvalidArgument
  /\ kindOf (JsError "Product ID cannot be empty") <> Some IllegalStateTransition.
Proof.
  split; [exact Reachable_cancelled_order|].
  repeat split; try reflexivity. discriminate.
Qed.

(** C2, amended: on an order whose state is CANCELLED or SHIPPED every call
    of addItem throws and appends nothing, the order being left as it was;
    the error is of kind IllegalStateTransition when the product identifier
    is not blank and [quantity <= 0] is false, and of kind InvalidArgument
    otherwise. *)
Theorem C2_closed_order_refuses_items
        (w : World) (o : t) (p : string) (q u : float) :
  _state o = CANCELLED \/ _state o = SHIPPED ->
  exists e,
    addItem p q u (mkFrame w o) = (Throw e, mkFrame w o)
    /\ _items (this (snd (addItem p q u (mkFrame w o)))) = _items o
    /\ kindOf e = Some (if blank p || (q <=? 0)%float
                        then InvalidArgument
                        else IllegalStateTransition).
Proof.
  intros Hclosed. apply closed_state_forbids_items in Hclosed.
  rewrite addItem_cases, Hclosed.
  destruct (blank p); cbn [orb].
  - eexists; repeat split.
  - destruct (q <=? 0)%float.
    + eexists; repeat split.
    + eexists; repeat split. apply kindOf_refused_add.
Qed.

Lemma C2_closed_order_refuses_items_witness :
  (_state cancelled_order = CANCELLED \/ _state cancelled_order = SHIPPED)
  /\ exists e,
       addItem "P009" 3 10 (mkFrame sample_world cancelled_order)
       = (Throw e, mkFrame sample_world cancelled_order)
       /\ _items (this (snd (addItem "P009" 3 10
                               (mkFrame sample_world cancelled_order))))
          = _items cancelled_order
       /\ kindOf e = Some IllegalStateTransition.
Proof.
  split.
  - left; reflexivity.
  - apply (C2_closed_order_refuses_items sample_world cancelled_order
             "P009" 3 10).
    left; reflexivity.
Defined.

(** C10: the argument checks of addItem run before the state guard.  On an
    order whose state is CANCELLED or SHIPPED, a call with a blank product
    identifier throws "Product ID cannot be empty", and a call with a
    product identifier that is not blank and a quantity <= 0 throws
    "Quantity must be greater than zero"; both are of kind InvalidArgument,
    not IllegalStateTransition, and the order is left as it was. *)
Theorem C10_argument_checks_before_state_guard
        (w : World) (o : t) (p : string) (q u : float) :
  _state o = CANCELLED \/ _state o = SHIPPED ->
  blank p = true \/ (q <=? 0)%float = true ->
  exists msg,
    addItem p q u (mkFrame w o) = (Throw (JsError msg), mkFrame w o)
    /\ msg = (if blank p then "Product ID cannot be empty"
              else "Quantity must be greater than zero")
    /\ kindOf (JsError msg) = Some InvalidArgument
    /\ kindOf (JsError msg) <> Some IllegalStateTransition.
Proof.
  intros _ Hargs. rewrite addItem_cases.
  destruct (blank p).
  - eexists; repeat split. discriminate.
  - destruct Hargs as [Hp|Hq]; [discriminate|]. rewrite Hq.
    eexists; repeat split. discriminate.
Qed.

Lemma C10_argument_checks_before_state_guard_witness :
  (_state cancelled_order = CANCELLED \/ _state cancelled_order = SHIPPED)
  /\ (blank "P001" = true \/ (0 <=? 0)%float = true)
  /\ exists msg,
       addItem "P001" 0 100 (mkFrame sample_world cancelled_order)
       = (Throw (JsError msg), mkFrame sample_world cancelled_order)
       /\ msg = "Quantity must be greater than zero"
       /\ kindOf (JsError msg) = Some InvalidArgument
       /\ kindOf (JsError msg) <> Some IllegalStateTransition.
Proof.
  split; [left; reflexivity|].
  split; [right; reflexivity|].
  apply (C10_argument_checks_before_state_guard sample_world cancelled_order
           "P001" 0 100).
  - left; reflexivity.
  - right; reflexivity.
Defined.

(** C5: addItem never changes the state of the order, whether it returns or
    throws; when it returns, the order has exactly one item more and the
    items it had before are the same, in the same positions. *)
Theorem C5_addItem_appends_one_and_keeps_state
        (w : World) (o : t) (p : string) (q u : float) :
  _state (this (snd (addItem p q u (mkFrame w o)))) = _state o
  /\ (fst (addItem p q u (mkFrame w o)) = Normal tt ->
      List.length (_items (this (snd (addItem p q u (mkFrame w o)))))
      = S (List.length (_items o))
      /\ firstn (List.length (_items o))
                (_items (this (snd (addItem p q u (mkFrame w o)))))
         = _items o).
Proof.
  rewrite addItem_cases.
  destruct (blank p); [split; [reflexivity|discriminate]|].
  destruct (q <=? 0)%float; [split; [reflexivity|discriminate]|].
  destruct (permits_items (_state o)); [|split; [reflexivity|discriminate]].
  cbn. split; [reflexivity|]. intros _. split.
  - rewrite length_app. cbn. lia.
  - rewrite firstn_app, Nat.sub_diag, firstn_all. cbn. apply app_nil_r.
Qed.

Lemma C5_addItem_appends_one_and_keeps_state_witness :
  fst (addItem "P003" 1 150 (mkFrame sample_world confirmed_order)) = Normal tt
  /\ _state (this (snd (addItem "P003" 1 150
                          (mkFrame sample_world confirmed_order))))
     = CONFIRMED
  /\ List.length (_items (this (snd (addItem "P003" 1 150
                                  (mkFrame sample_world confirmed_order)))))
     = 3.
Proof.
  pose proof (C5_addItem_appends_one_and_keeps_state
                sample_world confirmed_order "P003" 1 150) as [Hstate Hitems].
  split; [reflexivity|].
  split; [exact Hstate|].
  destruct (Hitems eq_refl) as [Hlen _]. exact Hlen.
Defined.

Lemma after_items_prefix (calls : list Call) :
  forall f, exists more, _items (this (after calls f)) = _items (this f) ++ more.
Proof.
  induction calls as [|c r IH]; intros [w o]; cbn.
  - exists []. now rewrite app_nil_r.
  - destruct (IH (snd (invoke c (mkFrame w o)))) as [more2 H2].
    destruct (invoke_items_prefix c w o) as [more1 H1].
    rewrite H1, <- app_assoc in H2. eauto.
Qed.

(** C6: addItem throws an error of kind InvalidArgument, and leaves the
    order as it was, if the product identifier is empty or blank or if
    quantity <= 0.  Otherwise, when the state permits (it is neither
    CANCELLED nor SHIPPED), it builds the unit price
    Money(unitPriceAmount, order.currency) and appends one item that carries
    the order's identifier, the trimmed product identifier, the quantity and
    that unit price; the item is immutable: whatever calls follow, it stays
    at its position as it was appended.  When the state does not permit, the
    call throws an error of kind IllegalStateTransition. *)
Theorem C6_addItem_validates_then_appends
        (w : World) (o : t) (p : string) (q u : float) :
  if blank p || (q <=? 0)%float
  then
    exists e,
      addItem p q u (mkFrame w o) = (Throw e, mkFrame w o)
      /\ kindOf e = Some InvalidArgument
  else if permits_items (_state o)
  then
    exists itemId w',
      let unitPrice := Money.new u (_currency o) in
      let item := SalesOrderItem.mk (_id o) itemId (Js.trim p) q unitPrice in
      addItem p q u (mkFrame w o) = (Normal tt, mkFrame w' (with_pushed o item))
      /\ _items (with_pushed o item) = _items o ++ [item]
      /\ Money.amount unitPrice = u
      /\ Money.currency unitPrice = _currency o
      /\ SalesOrderItem.productId item = Js.trim p
      /\ SalesOrderItem.quantity item = q
      /\ SalesOrderItem.unitPrice item = unitPrice
      /\ forall calls w2,
           nth_error
             (_items (this (after calls (mkFrame w2 (with_pushed o item)))))
             (List.length (_items o))
           = Some item
  else
    exists e,
      addItem p q u (mkFrame w o) = (Throw e, mkFrame w o)
      /\ kindOf e = Some IllegalStateTransition.
Proof.
  rewrite addItem_cases.
  destruct (blank p); cbn [orb].
  { eexists; split; reflexivity. }
  destruct (q <=? 0)%float.
  { eexists; split; reflexivity. }
  destruct (permits_items (_state o)).
  - do 2 eexists. cbn zeta. repeat split.
    intros calls w2.
    destruct (after_items_prefix calls
                (mkFrame w2
                   (with_pushed o
                      (SalesOrderItem.mk (_id o) (uuid_source w (uuid_next w))
                         (Js.trim p) q (Money.new u (_currency o))))))
      as [more Hmore].
    rewrite Hmore. cbn [this with_pushed _items].
    rewrite <- app_assoc, nth_error_app2 by lia.
    now rewrite Nat.sub_diag.
  - eexists; split; [reflexivity|apply kindOf_refused_add].
Qed.

(** ** Construction *)

(** C3: for every customer identifier that is not blank, every currency and
    every orderedAt that is valid and not in the future, the constructor
    returns an order in state PENDING, with no item, in the given currency,
    and calculateTotalPrice() on that order returns the zero amount in that
    currency. *)
Theorem C3_new_order_is_pending_and_empty
        (w : World) (customerId : string) (currency : Currency.t)
        (orderedAt : DateTime.Arg) :
  blank customerId = false ->
  valid_orderedAt w orderedAt ->
  exists o w',
    SalesOrder.new customerId currency orderedAt w = (Normal o, w')
    /\ _state o = PENDING
    /\ _items o = []
    /\ _currency o = currency
    /\ forall w2,
         calculateTotalPrice (mkFrame w2 o)
         = (Normal (Money.new 0%float currency), mkFrame w2 o).
Proof.
  intros Hid Hdate. unfold SalesOrder.new. unfold blank in Hid. rewrite Hid.
  unfold bind, uuidv4, DateTime.new, ret.
  destruct orderedAt as [| |ms]; cbn in Hdate |- *.
  - do 2 eexists; repeat split.
  - contradiction.
  - apply Z.leb_le in Hdate. rewrite Hdate.
    do 2 eexists; repeat split.
Qed.

Lemma C3_new_order_is_pending_and_empty_witness :
  blank "  C-1 " = false
  /\ valid_orderedAt sample_world (DateTime.Instant 1684146600000)
  /\ exists o w',
       SalesOrder.new "  C-1 " (Currency.mk "PEN")
         (DateTime.Instant 1684146600000) sample_world = (Normal o, w')
       /\ _state o = PENDING
       /\ _items o = []
       /\ _currency o = Currency.mk "PEN"
       /\ forall w2,
            calculateTotalPrice (mkFrame w2 o)
            = (Normal (Money.new 0%float (Currency.mk "PEN")), mkFrame w2 o).
Proof.
  split; [reflexivity|].
  split; [cbn; lia|].
  apply (C3_new_order_is_pending_and_empty sample_world "  C-1 "
           (Currency.mk "PEN") (DateTime.Instant 1684146600000)).
  - reflexivity.
  - cbn; lia.
Defined.

(** ** The invariant of the items *)

Lemma new_cases (customerId : string) (currency : Currency.t)
      (orderedAt : DateTime.Arg) (w w' : World) (o : t) :
  SalesOrder.new customerId currency orderedAt w = (Normal o, w') ->
  _items o = [] /\ _state o = PENDING /\ _currency o = currency.
Proof.
  unfold SalesOrder.new.
  destruct (Js.not_ customerId || String.eqb (Js.trim customerId) EmptyString);
    [discriminate|].
  unfold bind, uuidv4, DateTime.new, ret.
  destruct orderedAt as [| |ms]; cbn.
  - intros H; inversion H; subst; cbn; auto.
  - discriminate.
  - destruct (ms <=? clock w)%Z; intros H; inversion H; subst; cbn; auto.
Qed.

Lemma Reachable_items_ok (o : t) :
  Reachable o -> Forall (item_ok o) (_items o).
Proof.
  induction 1 as [cid cur arg w w' o Hnew | c w o Hreach IH].
  - destruct (new_cases _ _ _ _ _ _ Hnew) as (Hitems & _ & _).
    rewrite Hitems. constructor.
  - destruct (invoke_effect c w o)
      as [H|[[s H]|(p & q & u & i & _ & Hq & H)]]; rewrite H.
    + exact IH.
    + exact IH.
    + cbn [with_pushed _items]. apply Forall_app. split.
      * exact IH.
      * constructor; [|constructor]. repeat split. exact Hq.
Qed.

(** ** calculateTotalPrice *)

Lemma SFmul_comm (prec emax : Z) (x y : spec_float) :
  SFmul prec emax x y = SFmul prec emax y x.
Proof.
  destruct x as [sx|sx| |sx mx ex], y as [sy|sy| |sy my ey]; cbn;
    try reflexivity; try (now rewrite xorb_comm).
  now rewrite xorb_comm, Pos.mul_comm, Z.add_comm.
Qed.

(** Multiplication of binary64 numbers commutes. *)
Lemma float_mul_comm (x y : float) : (x * y)%float = (y * x)%float.
Proof. apply Prim2SF_inj. rewrite !mul_spec. apply SFmul_comm. Qed.

Lemma same_currency_refl (c : Currency.t) : Currency.same c c = true.
Proof. apply String.eqb_refl. Qed.

Lemma reduce_add_subtotals (cur : Currency.t) (items : list SalesOrderItem.t) :
  Forall (fun i => Money.currency (SalesOrderItem._unitPrice i) = cur) items ->
  forall (acc : float) (f : Frame),
    reduce
      (fun total item =>
         liftC (Money.add total (SalesOrderItem.calculateItemPrice item)))
      items (Money.mk acc cur) f
    = (Normal
         (Money.mk (fold_left (fun a i => (a + subtotal i)%float) items acc) cur),
       f).
Proof.
  induction 1 as [|i r Hi Hr IH]; intros acc f; cbn [reduce fold_left].
  - reflexivity.
  - unfold bind, liftC, Money.add, SalesOrderItem.calculateItemPrice,
      Money.multiply, Money.new. cbn [Money.currency Money.amount].
    rewrite Hi, same_currency_refl.
    unfold subtotal, SalesOrderItem.quantity, SalesOrderItem.unitPrice.
    rewrite (float_mul_comm (SalesOrderItem._quantity i)). apply IH.
Qed.

(** C4: calculateTotalPrice() does not change the order and returns, in the
    order's currency, the sum over the items of quantity times unit price,
    accumulated from zero in the order of the items.  In particular an order
    whose items are (quantity 2, price 100) and (quantity 20, price 50) has
    the total 1200. *)
Theorem C4_total_is_sum_of_subtotals (w : World) (o : t) :
  Reachable o ->
  calculateTotalPrice (mkFrame w o)
  = (Normal (Money.mk (sum_of_subtotals (_items o)) (_currency o)), mkFrame w o)
  /\ (map (fun i => (SalesOrderItem.quantity i,
                     Money.amount (SalesOrderItem.unitPrice i))) (_items o)
      = [(2%float, 100%float); (20%float, 50%float)] ->
      sum_of_subtotals (_items o) = 1200%float).
Proof.
  intros Hreach. split.
  - unfold calculateTotalPrice, bind, get, Money.new, sum_of_subtotals.
    cbn [this]. apply reduce_add_subtotals.
    apply Reachable_items_ok in Hreach.
    eapply Forall_impl; [|exact Hreach]. intros i Hi. apply Hi.
  - destruct (_items o) as [|[o1 i1 p1 q1 [a1 c1]] [|[o2 i2 p2 q2 [a2 c2]] [|]]];
      cbn; try discriminate.
    intros H; inversion H; subst. reflexivity.
Qed.

Lemma C4_total_is_sum_of_subtotals_witness :
  Reachable confirmed_order
  /\ map (fun i => (SalesOrderItem.quantity i,
                    Money.amount (SalesOrderItem.unitPrice i)))
         (_items confirmed_order)
     = [(2%float, 100%float); (20%float, 50%float)]
  /\ calculateTotalPrice (mkFrame sample_world confirmed_order)
     = (Normal (Money.mk 1200%float USD), mkFrame sample_world confirmed_order).
Proof.
  split; [exact Reachable_confirmed_order|].
  split; [reflexivity|].
  destruct (C4_total_is_sum_of_subtotals sample_world confirmed_order
              Reachable_confirmed_order) as [Htotal Hexample].
  rewrite Htotal, (Hexample eq_refl). reflexivity.
Defined.

(** ** Failure leaves the order as it was *)

(** C8: a core operation that fails leaves the aggregate as it was.  A call
    of addItem, calculateTotalPrice, confirm, ship or cancel that throws
    leaves the order, its state and its items included, and the world, as
    they were before the call.  A constructor that throws returns no order,
    and throws only because a validation failed: a blank customer
    identifier, or an orderedAt that is invalid or in the future. *)
Theorem C8_failure_leaves_order_unchanged :
  (forall (c : Call) (w : World) (o : t) (e : Error) (f' : Frame),
      invoke c (mkFrame w o) = (Throw e, f') ->
      f' = mkFrame w o
      /\ _state (this f') = _state o
      /\ _items (this f') = _items o)
  /\ (forall (customerId : string) (currency : Currency.t)
             (orderedAt : DateTime.Arg) (w w' : World) (e : Error),
         SalesOrder.new customerId currency orderedAt w = (Throw e, w') ->
         (blank customerId = true
          /\ e = JsError "Customer ID cannot be empty")
         \/ (blank customerId = false
             /\ ~ valid_orderedAt w orderedAt
             /\ e = CollaboratorError InvalidArgument)).
Proof.
  split.
  - intros c w o e f' H.
    assert (Hf : f' = mkFrame w o).
    { destruct c as [p q u| | | |]; cbn [invoke] in H.
      - rewrite addItem_cases in H.
        destruct (blank p); [now inversion H|].
        destruct (q <=? 0)%float; [now inversion H|].
        destruct (permits_items (_state o)); [discriminate|now inversion H].
      - unfold bind in H.
        pose proof (calculateTotalPrice_frame (mkFrame w o)) as Hpure.
        destruct (calculateTotalPrice (mkFrame w o)) as [[m|e'] f1];
          cbn in Hpure; subst f1; [discriminate|now inversion H].
      - change confirm with (transition Confirm) in H.
        rewrite transition_cases in H.
        destruct (edge Confirm (_state o)); [discriminate|now inversion H].
      - change ship with (transition Ship) in H.
        rewrite transition_cases in H.
        destruct (edge Ship (_state o)); [discriminate|now inversion H].
      - change cancel with (transition Cancel) in H.
        rewrite transition_cases in H.
        destruct (edge Cancel (_state o)); [discriminate|now inversion H]. }
    subst f'. repeat split.
  - intros cid cur arg w w' e. unfold SalesOrder.new, blank.
    destruct (Js.not_ cid || String.eqb (Js.trim cid) EmptyString).
    + intros H; inversion H; auto.
    + unfold bind, uuidv4, DateTime.new, ret.
      destruct arg as [| |ms]; cbn.
      * discriminate.
      * intros H; inversion H. right. auto.
      * destruct (ms <=? clock w)%Z eqn:Hms; intros H; inversion H.
        right. apply Z.leb_gt in Hms. repeat split. lia.
Qed.

Lemma C8_failure_leaves_order_unchanged_witness :
  invoke (CallAddItem "P004" (-1) 5) (mkFrame sample_world confirmed_order)
  = (Throw (JsError "Quantity must be greater than zero"),
     mkFrame sample_world confirmed_order)
  /\ SalesOrder.new "   " USD DateTime.Omitted sample_world
     = (Throw (JsError "Customer ID cannot be empty"), sample_world)
  /\ (mkFrame sample_world confirmed_order = mkFrame sample_world confirmed_order
      /\ _state confirmed_order = _state confirmed_order
      /\ _items confirmed_order = _items confirmed_order)
  /\ ((blank "   " = true
       /\ JsError "Customer ID cannot be empty"
          = JsError "Customer ID cannot be empty")
      \/ (blank "   " = false
          /\ ~ valid_orderedAt sample_world DateTime.Omitted
          /\ JsError "Customer ID cannot be empty"
             = CollaboratorError InvalidArgument)).
Proof.
  destruct C8_failure_leaves_order_unchanged as [Hcall Hnew].
  split; [reflexivity|].
  split; [reflexivity|].
  split.
  - apply (Hcall (CallAddItem "P004" (-1) 5) sample_world confirmed_order
             (JsError "Quantity must be greater than zero")
             (mkFrame sample_world confirmed_order)).
    reflexivity.
  - apply (Hnew "   " USD DateTime.Omitted sample_world sample_world
             (JsError "Customer ID cannot be empty")).
    reflexivity.
Defined.

(** ** Quantities *)

Lemma not_leb_zero (q : float) :
  (q <=? 0)%float = false -> (0 <? q)%float = true \/ isNaN q = true.
Proof.
  unfold isNaN. rewrite leb_spec, ltb_spec, eqb_spec.
  change (Prim2SF 0) with (S754_zero false).
  destruct (Prim2SF q) as [[]|[]| |[] m e]; cbn; auto; discriminate.
Qed.

Example half_unit_order_items : _items half_unit_order = [half_unit_item].
Proof. reflexivity. Qed.

(** NaN passes the guard [quantity <= 0] and is stored. *)
Example addItem_stores_NaN :
  map SalesOrderItem.quantity
      (_items (this (snd (addItem "P001" nan 100
                            (mkFrame sample_world fresh_order)))))
  = [nan].
Proof. reflexivity. Qed.

(** C9, as the claim states it, fails: addItem("P001", 0.5, 100) on a new
    order returns, and the order then holds an item whose quantity 0.5 is
    not an integer. *)
Lemma C9_counterexample :
  Reachable half_unit_order
  /\ fst (addItem "P001" 0.5 100 fresh_frame) = Normal tt
  /\ In half_unit_item (_items half_unit_order)
  /\ SalesOrderItem.quantity half_unit_item = 0.5%float
  /\ Js.isInteger (SalesOrderItem.quantity half_unit_item) = false
  /\ positive_integer (SalesOrderItem.quantity half_unit_item) = false.
Proof.
  split; [exact Reachable_half_unit_order|].
  repeat split. left; reflexivity.
Qed.

(** C9, amended: for every item held by an order the test [quantity <= 0]
    of addItem is false, so that the quantity is greater than zero whenever
    it is not NaN; it need not be an integer. *)
Theorem C9_stored_quantity_passes_guard (o : t) (item : SalesOrderItem.t) :
  Reachable o ->
  In item (_items o) ->
  (SalesOrderItem.quantity item <=? 0)%float = false
  /\ ((0 <? SalesOrderItem.quantity item)%float = true
      \/ isNaN (SalesOrderItem.quantity item) = true).
Proof.
  intros Hreach Hin.
  apply Reachable_items_ok in Hreach.
  rewrite Forall_forall in Hreach.
  destruct (Hreach item Hin) as (_ & Hq & _).
  split; [exact Hq|apply not_leb_zero, Hq].
Qed.

Lemma C9_stored_quantity_passes_guard_witness :
  Reachable half_unit_order
  /\ In half_unit_item (_items half_unit_order)
  /\ (0.5 <=? 0)%float = false
  /\ ((0 <? 0.5)%float = true \/ isNaN 0.5 = true).
Proof.
  split; [exact Reachable_half_unit_order|].
  split; [left; reflexivity|].
  apply (C9_stored_quantity_passes_guard half_unit_order half_unit_item).
  - exact Reachable_half_unit_order.
  - left; reflexivity.
Defined.

(** * Further properties of the source *)

(** ** Trimmed strings *)

Lemma trimEnd_cons (c : ascii) (r : string) :
  Js.trimEnd (String c r)
  = match Js.trimEnd r with
    | EmptyString =>
        if Js.isWhiteSpace c then EmptyString else String c EmptyString
    | r' => String c r'
    end.
Proof. reflexivity. Qed.

Lemma trimEnd_idempotent (s : string) : Js.trimEnd (Js.trimEnd s) = Js.trimEnd s.
Proof.
  induction s as [|c r IH]; [reflexivity|].
  rewrite trimEnd_cons.
  destruct (Js.trimEnd r) as [|c' r'] eqn:Hr.
  - destruct (Js.isWhiteSpace c) eqn:Hc; [reflexivity|].
    rewrite trimEnd_cons. cbn [Js.trimEnd]. now rewrite Hc.
  - rewrite trimEnd_cons, IH. reflexivity.
Qed.

Lemma trimStart_head (s : string) :
  Js.trimStart s = EmptyString
  \/ exists c r, Js.trimStart s = String c r /\ Js.isWhiteSpace c = false.
Proof.
  induction s as [|c r IH]; cbn [Js.trimStart]; [now left|].
  destruct (Js.isWhiteSpace c) eqn:Hc; [exact IH|].
  right. now exists c, r.
Qed.

Lemma trimEnd_keeps_head (c : ascii) (r : string) :
  Js.isWhiteSpace c = false ->
  exists r', Js.trimEnd (String c r) = String c r'.
Proof.
  intros Hc. rewrite trimEnd_cons. destruct (Js.trimEnd r); [rewrite Hc|]; eauto.
Qed.

(** [s.trim().trim() === s.trim()] *)
Lemma trim_idempotent (s : string) : Js.trim (Js.trim s) = Js.trim s.
Proof.
  unfold Js.trim.
  destruct (trimStart_head s) as [H|(c & r & H & Hc)]; rewrite H.
  - reflexivity.
  - destruct (trimEnd_keeps_head c r Hc) as [r' Hr'].
    rewrite Hr'. cbn [Js.trimStart]. rewrite Hc, <- Hr'.
    apply trimEnd_idempotent.
Qed.

(** The trimmed form of an identifier that passed the check passes it
    again. *)
Lemma trim_not_blank (s : string) : blank s = false -> blank (Js.trim s) = false.
Proof.
  unfold blank. intros H. apply orb_false_iff in H as [_ H].
  rewrite trim_idempotent, H.
  destruct (Js.trim s); [discriminate|reflexivity].
Qed.

(** ** One call, on the order and on the world *)

Lemma invoke_frame_effect (c : Call) (w : World) (o : t) :
  snd (invoke c (mkFrame w o)) = mkFrame w o
  \/ (exists tr s,
        edge tr (_state o) = Some s
        /\ snd (invoke c (mkFrame w o)) = mkFrame w (with_state o s))
  \/ (exists p q u,
        c = CallAddItem p q u
        /\ blank p = false
        /\ (q <=? 0)%float = false
        /\ permits_items (_state o) = true
        /\ snd (invoke c (mkFrame w o))
           = mkFrame (after_draw w)
               (with_pushed o
                  (SalesOrderItem.mk (_id o) (uuid_source w (uuid_next w))
                     (Js.trim p) q (Money.new u (_currency o))))).
Proof.
  destruct c as [p q u| | | |]; cbn [invoke].
  - rewrite addItem_cases.
    destruct (blank p) eqn:Hp; [now left|].
    destruct (q <=? 0)%float eqn:Hq; [now left|].
    destruct (permits_items (_state o)) eqn:Hs; [|now left].
    right; right. exists p, q, u. repeat split; assumption || reflexivity.
  - left. unfold bind.
    pose proof (calculateTotalPrice_frame (mkFrame w o)) as H.
    destruct (calculateTotalPrice (mkFrame w o)) as [[m|e] f']; cbn in *;
      subst; reflexivity.
  - change confirm with (transition Confirm). rewrite transition_cases.
    destruct (edge Confirm (_state o)) as [s|] eqn:He; [|now left].
    right; left. now exists Confirm, s.
  - change ship with (transition Ship). rewrite transition_cases.
    destruct (edge Ship (_state o)) as [s|] eqn:He; [|now left].
    right; left. now exists Ship, s.
  - change cancel with (transition Cancel). rewrite transition_cases.
    destruct (edge Cancel (_state o)) as [s|] eqn:He; [|now left].
    right; left. now exists Cancel, s.
Qed.

Lemma edge_moves_forward (tr : Transition) (s s' : SalesOrderState) :
  edge tr s = Some s' ->
  permits_items s = true /\ rank s < rank s' /\ edge tr s' = None.
Proof.
  destruct tr, s; cbn; intros H; inversion H; subst; cbn; repeat split; lia.
Qed.

(** A relation between frames that holds across one call, is reflexive and
    transitive, holds across every sequence of calls. *)
Lemma after_preserves (R : Frame -> Frame -> Prop) :
  (forall f, R f f) ->
  (forall f g h, R f g -> R g h -> R f h) ->
  (forall c f, R f (snd (invoke c f))) ->
  forall calls f, R f (after calls f).
Proof.
  intros Hrefl Htrans Hstep calls.
  induction calls as [|c r IH]; intros f; cbn.
  - apply Hrefl.
  - eapply Htrans; [apply Hstep|apply IH].
Qed.

(** ** Sequences of calls *)

(** X1: an order that is SHIPPED or CANCELLED is frozen.  Whatever calls
    follow, in whatever number, the order (state, items and all other
    fields) and the world are what they were: every such call either throws
    or is calculateTotalPrice. *)
Theorem closed_order_is_frozen (calls : list Call) (f : Frame) :
  permits_items (_state (this f)) = false ->
  after calls f = f.
Proof.
  revert f. induction calls as [|c r IH]; intros [w o] Hclosed; cbn in *.
  - reflexivity.
  - assert (Hstep : snd (invoke c (mkFrame w o)) = mkFrame w o).
    { destruct (invoke_frame_effect c w o)
        as [H|[(tr & s & He & _)|(p & q & u & _ & _ & _ & Hs & _)]].
      - exact H.
      - apply edge_moves_forward in He as (Hs & _). congruence.
      - congruence. }
    rewrite Hstep. now apply IH.
Qed.

Lemma closed_order_is_frozen_witness :
  permits_items (_state cancelled_order) = false
  /\ after [CallAddItem "P001" 1 10; CallConfirm; CallShip; CallCancel;
            CallCalculateTotalPrice]
       (mkFrame sample_world cancelled_order)
     = mkFrame sample_world cancelled_order.
Proof.
  split; [reflexivity|].
  apply (closed_order_is_frozen
           [CallAddItem "P001" 1 10; CallConfirm; CallShip; CallCancel;
            CallCalculateTotalPrice]
           (mkFrame sample_world cancelled_order)).
  reflexivity.
Defined.

(** X2: the state of an order never goes back.  Across every sequence of
    calls the rank of the state (PENDING, then CONFIRMED, then SHIPPED or
    CANCELLED) does not decrease; in particular an order that has left
    PENDING is never PENDING again. *)
Theorem state_never_goes_back (calls : list Call) (f : Frame) :
  rank (_state (this f)) <= rank (_state (this (after calls f)))
  /\ (_state (this (after calls f)) = PENDING -> _state (this f) = PENDING).
Proof.
  assert (H : rank (_state (this f)) <= rank (_state (this (after calls f)))).
  { apply (after_preserves
             (fun f g => rank (_state (this f)) <= rank (_state (this g)))).
    - intros; lia.
    - intros; lia.
    - intros c [w o]; cbn [this].
      destruct (invoke_frame_effect c w o)
        as [E|[(tr & s & He & E)|(p & q & u & _ & _ & _ & _ & E)]];
        rewrite E; cbn; try lia.
      apply edge_moves_forward in He. lia. }
  split; [exact H|].
  intros Hp. rewrite Hp in H. destruct (_state (this f)); cbn in H; (reflexivity || lia).
Qed.

Lemma state_never_goes_back_witness :
  rank (_state (this fresh_frame))
  <= rank (_state (this (after scenario_calls fresh_frame)))
  /\ _state (this (after [CallCalculateTotalPrice; CallShip] fresh_frame))
     = PENDING
  /\ _state (this fresh_frame) = PENDING.
Proof.
  split.
  - apply (state_never_goes_back scenario_calls fresh_frame).
  - split; [reflexivity|].
    apply (state_never_goes_back [CallCalculateTotalPrice; CallShip]
             fresh_frame).
    reflexivity.
Defined.

(** X3: no transition can be taken twice in a row.  When confirm(), ship()
    or cancel() returns, the same call on the resulting order throws an
    error of kind IllegalStateTransition and leaves that order as it is. *)
Theorem transition_not_repeatable
        (tr : Transition) (w : World) (o : t) (f' : Frame) :
  transition tr (mkFrame w o) = (Normal tt, f') ->
  exists e,
    transition tr f' = (Throw e, f')
    /\ kindOf e = Some IllegalStateTransition.
Proof.
  rewrite transition_cases.
  destruct (edge tr (_state o)) as [s|] eqn:He; [|discriminate].
  intros H; inversion H; subst f'. clear H.
  apply edge_moves_forward in He as (_ & _ & Hnone).
  rewrite transition_cases. cbn [with_state _state]. rewrite Hnone.
  eexists; split; [reflexivity|apply kindOf_refused_transition].
Qed.

Lemma transition_not_repeatable_witness :
  transition Cancel (mkFrame sample_world confirmed_order)
  = (Normal tt, mkFrame sample_world (with_state confirmed_order CANCELLED))
  /\ exists e,
       transition Cancel
         (mkFrame sample_world (with_state confirmed_order CANCELLED))
       = (Throw e, mkFrame sample_world (with_state confirmed_order CANCELLED))
       /\ kindOf e = Some IllegalStateTransition.
Proof.
  split; [reflexivity|].
  apply (transition_not_repeatable Cancel sample_world confirmed_order).
  reflexivity.
Defined.

(** X4: the identity of an order is fixed at construction: no sequence of
    calls changes its identifier, its customer identifier, its currency or
    its date. *)
Theorem identity_fields_never_change (calls : list Call) (f : Frame) :
  SalesOrder.id (this (after calls f)) = SalesOrder.id (this f)
  /\ SalesOrder.customerId (this (after calls f)) = SalesOrder.customerId (this f)
  /\ SalesOrder.currency (this (after calls f)) = SalesOrder.currency (this f)
  /\ SalesOrder.orderedAt (this (after calls f)) = SalesOrder.orderedAt (this f).
Proof.
  apply (after_preserves
           (fun f g =>
              SalesOrder.id (this g) = SalesOrder.id (this f)
              /\ SalesOrder.customerId (this g) = SalesOrder.customerId (this f)
              /\ SalesOrder.currency (this g) = SalesOrder.currency (this f)
              /\ SalesOrder.orderedAt (this g) = SalesOrder.orderedAt (this f))).
  - intros; repeat split.
  - intros a b c (H1 & H2 & H3 & H4) (K1 & K2 & K3 & K4).
    repeat split; congruence.
  - intros c [w o]; cbn [this].
    destruct (invoke_frame_effect c w o)
      as [E|[(tr & s & _ & E)|(p & q & u & _ & _ & _ & _ & E)]];
      rewrite E; repeat split.
Qed.

(** X5: the items of an order are append-only.  Across every sequence of
    calls the items held before are a prefix of the items held after, and
    at most one item is appended per call. *)
Theorem items_are_append_only (calls : list Call) (f : Frame) :
  exists more,
    _items (this (after calls f)) = _items (this f) ++ more
    /\ List.length more <= List.length calls.
Proof.
  revert f. induction calls as [|c r IH]; intros [w o]; cbn [after fold_left].
  - exists []. split; [now rewrite app_nil_r|cbn; lia].
  - fold (after r (snd (invoke c (mkFrame w o)))).
    destruct (IH (snd (invoke c (mkFrame w o)))) as (more & Hmore & Hlen).
    rewrite Hmore. cbn [this].
    destruct (invoke_frame_effect c w o)
      as [E|[(tr & s & _ & E)|(p & q & u & _ & _ & _ & _ & E)]];
      rewrite E; cbn [this with_state with_pushed _items List.length].
    + exists more. split; [reflexivity|lia].
    + exists more. split; [reflexivity|lia].
    + eexists. rewrite <- app_assoc. split; [reflexivity|cbn; lia].
Qed.

(** X6: identifiers are drawn exactly when something is created.  Across
    every sequence of calls the clock and the source of identifiers are
    untouched, and the number of identifiers drawn is the number of items
    appended: a call that throws, a transition and calculateTotalPrice draw
    none. *)
Theorem one_identifier_per_item (calls : list Call) (f : Frame) :
  clock (world (after calls f)) = clock (world f)
  /\ uuid_source (world (after calls f)) = uuid_source (world f)
  /\ exists more,
       _items (this (after calls f)) = _items (this f) ++ more
       /\ uuid_next (world (after calls f))
          = (uuid_next (world f) + N.of_nat (List.length more))%N.
Proof.
  apply (after_preserves
           (fun f g =>
              clock (world g) = clock (world f)
              /\ uuid_source (world g) = uuid_source (world f)
              /\ exists more,
                   _items (this g) = _items (this f) ++ more
                   /\ uuid_next (world g)
                      = (uuid_next (world f) + N.of_nat (List.length more))%N)).
  - intros g. repeat split. exists []. rewrite app_nil_r. split; [reflexivity|].
    cbn. lia.
  - intros a b c (H1 & H2 & m1 & H3 & H4) (K1 & K2 & m2 & K3 & K4).
    split; [congruence|]. split; [congruence|].
    exists (m1 ++ m2). rewrite K3, H3, <- app_assoc. split; [reflexivity|].
    rewrite K4, H4, length_app. lia.
  - intros c [w o]; cbn [this world].
    destruct (invoke_frame_effect c w o)
      as [E|[(tr & s & _ & E)|(p & q & u & _ & _ & _ & _ & E)]];
      rewrite E; cbn [this world with_state with_pushed _items after_draw
                      clock uuid_source uuid_next].
    + repeat split. exists []. rewrite app_nil_r. split; [reflexivity|cbn; lia].
    + repeat split. exists []. rewrite app_nil_r. split; [reflexivity|cbn; lia].
    + repeat split. eexists. split; [reflexivity|cbn; lia].
Qed.

(** ** What the constructor establishes *)

Lemma new_frame (customerId : string) (currency : Currency.t)
      (orderedAt : DateTime.Arg) (w w' : World) (o : t) :
  SalesOrder.new customerId currency orderedAt w = (Normal o, w') ->
  blank customerId = false
  /\ w' = after_draw w
  /\ _id o = uuid_source w (uuid_next w)
  /\ _customerId o = Js.trim customerId
  /\ _items o = [].
Proof.
  unfold SalesOrder.new, blank.
  destruct (Js.not_ customerId || String.eqb (Js.trim customerId) EmptyString);
    [discriminate|].
  unfold bind, uuidv4, DateTime.new, ret.
  destruct orderedAt as [| |ms]; cbn.
  - intros H; inversion H; subst; cbn; auto.
  - discriminate.
  - destruct (ms <=? clock w)%Z; intros H; inversion H; subst; cbn; auto.
Qed.

(** ** Identifiers *)

Lemma NoDup_snoc {A : Type} (l : list A) (a : A) :
  NoDup l -> ~ In a l -> NoDup (l ++ [a]).
Proof.
  intros Hl Ha. apply NoDup_app; [exact Hl|repeat constructor; intros []|].
  intros x Hx [Hax|[]]. subst. contradiction.
Qed.

Lemma drawn_from_invoke (source : N -> string) (c : Call) (f : Frame) :
  drawn_from source f -> drawn_from source (snd (invoke c f)).
Proof.
  destruct f as [w o].
  intros (Hsrc & k & ns & Hid & Hitems & Hk & Hns & Hnd).
  cbn [this world] in *.
  destruct (invoke_frame_effect c w o)
    as [E|[(tr & s & _ & E)|(p & q & u & _ & _ & _ & _ & E)]]; rewrite E.
  - split; [exact Hsrc|]. exists k, ns. repeat split; assumption.
  - split; [exact Hsrc|]. exists k, ns. repeat split; assumption.
  - split; [exact Hsrc|]. exists k, (ns ++ [uuid_next w]).
    cbn [this world with_pushed _items _id after_draw uuid_next].
    rewrite !map_app, Hitems, Hsrc. cbn [map SalesOrderItem._itemId].
    repeat split.
    + exact Hid.
    + lia.
    + apply Forall_app. split.
      * eapply Forall_impl; [|exact Hns]. cbn. intros; lia.
      * repeat constructor; lia.
    + apply NoDup_snoc; [exact Hnd|].
      intros Hin. rewrite Forall_forall in Hns. apply Hns in Hin. lia.
Qed.

Lemma drawn_from_after (source : N -> string) (calls : list Call) :
  forall f, drawn_from source f -> drawn_from source (after calls f).
Proof.
  induction calls as [|c r IH]; intros f Hf; cbn.
  - exact Hf.
  - apply IH, drawn_from_invoke, Hf.
Qed.

(** X7: identifiers are unique within an order.  If [uuidv4()] never
    returns the same value twice, then after any sequence of calls on a new
    order the identifier of the order and the identifiers of its items are
    pairwise distinct. *)
Theorem identifiers_are_distinct
        (customerId : string) (currency : Currency.t)
        (orderedAt : DateTime.Arg) (w w' : World) (o : t)
        (calls : list Call) :
  (forall a b, uuid_source w a = uuid_source w b -> a = b) ->
  SalesOrder.new customerId currency orderedAt w = (Normal o, w') ->
  NoDup (identifiers (this (after calls (mkFrame w' o)))).
Proof.
  intros Hinj Hnew.
  destruct (new_frame _ _ _ _ _ _ Hnew) as (_ & Hw' & Hid & _ & Hitems).
  assert (H0 : drawn_from (uuid_source w) (mkFrame w' o)).
  { subst w'. split; [reflexivity|].
    exists (uuid_next w), []. cbn [this world after_draw uuid_next].
    rewrite Hitems. repeat split; try assumption; try constructor. lia. }
  apply (drawn_from_after _ calls) in H0.
  destruct H0 as (_ & k & ns & Hk & Hns & _ & Hbound & Hnd).
  unfold identifiers, SalesOrder.id. rewrite Hk, Hns.
  change (NoDup (map (uuid_source w) (k :: ns))).
  apply NoDup_map_NoDup_ForallPairs.
  - intros a b _ _. apply Hinj.
  - constructor; [|exact Hnd].
    intros Hin. rewrite Forall_forall in Hbound. apply Hbound in Hin. lia.
Qed.

Lemma sample_source_injective (a b : N) :
  uuid_source sample_world a = uuid_source sample_world b -> a = b.
Proof.
  cbn. intros H. injection H as H.
  apply (f_equal NilEmpty.uint_of_string) in H.
  rewrite !NilEmpty.usu in H. injection H as H.
  apply (f_equal N.of_uint) in H. now rewrite !Unsigned.of_to in H.
Qed.

Lemma identifiers_are_distinct_witness :
  SalesOrder.new "C-1" USD DateTime.Omitted sample_world
  = (Normal fresh_order, world fresh_frame)
  /\ identifiers (this (after scenario_calls fresh_frame))
     = ["uuid-0"; "uuid-1"; "uuid-2"]
  /\ NoDup (identifiers (this (after scenario_calls fresh_frame))).
Proof.
  split; [reflexivity|].
  split; [reflexivity|].
  apply (identifiers_are_distinct "C-1" USD DateTime.Omitted sample_world
           (world fresh_frame) fresh_order scenario_calls).
  - exact sample_source_injective.
  - reflexivity.
Defined.

(** ** Invariants of reachable orders *)

(** X8: every item of an order belongs to it and is well formed: it carries
    the order's identifier, its unit price is in the order's currency, and
    its product identifier is non-empty and has no white space at either
    end. *)
Theorem items_belong_to_their_order (o : t) (item : SalesOrderItem.t) :
  Reachable o ->
  In item (_items o) ->
  SalesOrderItem._orderId item = SalesOrder.id o
  /\ Money.currency (SalesOrderItem.unitPrice item) = SalesOrder.currency o
  /\ blank (SalesOrderItem.productId item) = false
  /\ Js.trim (SalesOrderItem.productId item) = SalesOrderItem.productId item.
Proof.
  intros Hreach. revert item.
  induction Hreach as [cid cur arg w w' o Hnew | c w o Hreach IH]; intros item.
  - destruct (new_frame _ _ _ _ _ _ Hnew) as (_ & _ & _ & _ & Hitems).
    rewrite Hitems. intros [].
  - destruct (invoke_frame_effect c w o)
      as [E|[(tr & s & _ & E)|(p & q & u & _ & Hp & _ & _ & E)]]; rewrite E;
      cbn [this with_state with_pushed _items].
    + apply IH.
    + apply IH.
    + intros Hin. apply in_app_or in Hin as [Hin|[Heq|[]]].
      * apply IH, Hin.
      * subst item. cbn. repeat split.
        -- apply trim_not_blank, Hp.
        -- apply trim_idempotent.
Qed.

Lemma items_belong_to_their_order_witness :
  Reachable half_unit_order
  /\ In half_unit_item (_items half_unit_order)
  /\ SalesOrderItem._orderId half_unit_item = SalesOrder.id half_unit_order
  /\ Money.currency (SalesOrderItem.unitPrice half_unit_item)
     = SalesOrder.currency half_unit_order
  /\ blank (SalesOrderItem.productId half_unit_item) = false
  /\ Js.trim (SalesOrderItem.productId half_unit_item)
     = SalesOrderItem.productId half_unit_item.
Proof.
  split; [exact Reachable_half_unit_order|].
  split; [left; reflexivity|].
  apply (items_belong_to_their_order half_unit_order half_unit_item).
  - exact Reachable_half_unit_order.
  - left; reflexivity.
Defined.

(** X9: the customer identifier of an order is non-empty and has no white
    space at either end: the constructor stores the trimmed argument, having
    refused a blank one, and no call changes it. *)
Theorem customerId_is_trimmed_and_not_blank (o : t) :
  Reachable o ->
  blank (SalesOrder.customerId o) = false
  /\ Js.trim (SalesOrder.customerId o) = SalesOrder.customerId o.
Proof.
  induction 1 as [cid cur arg w w' o Hnew | c w o Hreach IH].
  - destruct (new_frame _ _ _ _ _ _ Hnew) as (Hcid & _ & _ & Hstored & _).
    unfold SalesOrder.customerId. rewrite Hstored.
    split; [apply trim_not_blank, Hcid|apply trim_idempotent].
  - destruct (invoke_frame_effect c w o)
      as [E|[(tr & s & _ & E)|(p & q & u & _ & _ & _ & _ & E)]]; rewrite E;
      exact IH.
Qed.

Lemma customerId_is_trimmed_and_not_blank_witness :
  Reachable confirmed_order
  /\ SalesOrder.customerId confirmed_order = "C-1"
  /\ blank (SalesOrder.customerId confirmed_order) = false
  /\ Js.trim (SalesOrder.customerId confirmed_order)
     = SalesOrder.customerId confirmed_order.
Proof.
  split; [exact Reachable_confirmed_order|].
  split; [reflexivity|].
  apply (customerId_is_trimmed_and_not_blank confirmed_order).
  exact Reachable_confirmed_order.
Defined.

(** ** How addItem and calculateTotalPrice compose *)

Lemma total_of_reachable (w : World) (o : t) :
  Reachable o ->
  calculateTotalPrice (mkFrame w o)
  = (Normal (Money.mk (sum_of_subtotals (_items o)) (_currency o)), mkFrame w o).
Proof.
  intros Hreach.
  unfold calculateTotalPrice, bind, get, Money.new, sum_of_subtotals.
  cbn [this]. apply reduce_add_subtotals.
  apply Reachable_items_ok in Hreach.
  eapply Forall_impl; [|exact Hreach]. intros i Hi. apply Hi.
Qed.

(** X10: a successful addItem(productId, quantity, unitPriceAmount) raises
    the total by quantity times unitPriceAmount: calculateTotalPrice()
    returns before the call some amount in the order's currency, and after
    it that amount plus quantity * unitPriceAmount, in the same currency. *)
Theorem addItem_raises_total
        (w : World) (o : t) (p : string) (q u : float) (f' : Frame) :
  Reachable o ->
  addItem p q u (mkFrame w o) = (Normal tt, f') ->
  exists before,
    fst (calculateTotalPrice (mkFrame w o))
    = Normal (Money.mk before (_currency o))
    /\ fst (calculateTotalPrice f')
       = Normal (Money.mk (before + q * u)%float (_currency o)).
Proof.
  intros Hreach Hadd.
  exists (sum_of_subtotals (_items o)).
  split; [now rewrite total_of_reachable|].
  assert (Hreach' : Reachable (this f')).
  { pose proof (Reachable_call (CallAddItem p q u) w o Hreach) as H.
    cbn [invoke] in H. now rewrite Hadd in H. }
  rewrite (frame_eta f'), (total_of_reachable _ _ Hreach').
  rewrite addItem_cases in Hadd.
  destruct (blank p); [discriminate|].
  destruct (q <=? 0)%float; [discriminate|].
  destruct (permits_items (_state o)); [|discriminate].
  inversion Hadd; subst f'. cbn [this with_pushed _items _currency fst].
  unfold sum_of_subtotals. rewrite fold_left_app. reflexivity.
Qed.

Lemma addItem_raises_total_witness :
  Reachable confirmed_order
  /\ addItem "P003" 1 150 (mkFrame sample_world confirmed_order)
     = (Normal tt, snd (addItem "P003" 1 150
                          (mkFrame sample_world confirmed_order)))
  /\ fst (calculateTotalPrice (mkFrame sample_world confirmed_order))
     = Normal (Money.mk 1200 USD)
  /\ fst (calculateTotalPrice
            (snd (addItem "P003" 1 150 (mkFrame sample_world confirmed_order))))
     = Normal (Money.mk 1350 USD).
Proof.
  split; [exact Reachable_confirmed_order|].
  split; [reflexivity|].
  destruct (addItem_raises_total sample_world confirmed_order "P003" 1 150
              (snd (addItem "P003" 1 150 (mkFrame sample_world confirmed_order)))
              Reachable_confirmed_order eq_refl) as (before & Hb & Ha).
  split; [reflexivity|].
  rewrite Ha. vm_compute in Hb. injection Hb as <-. reflexivity.
Defined.

(** ** The failures of the methods *)

(** X11: the failures of the public methods of an order are those the
    source writes, and no other.  A call that throws on an order throws an
    Error whose message is "Product ID cannot be empty", "Quantity must be
    greater than zero", or one of the four refusals naming the state the
    order is in; calculateTotalPrice() never throws. *)
Theorem methods_throw_only_their_messages
        (c : Call) (w : World) (o : t) (e : Error) (f' : Frame) :
  Reachable o ->
  invoke c (mkFrame w o) = (Throw e, f') ->
  c <> CallCalculateTotalPrice
  /\ exists m, e = JsError m /\ In m (method_messages (_state o)).
Proof.
  intros Hreach.
  destruct c as [p q u| | | |]; cbn [invoke].
  - rewrite addItem_cases.
    destruct (blank p); [|destruct (q <=? 0)%float;
                           [|destruct (permits_items (_state o))]];
      intros H; inversion H; (split; [discriminate|]); eexists;
      (split; [reflexivity|]); cbn; auto.
  - unfold bind. rewrite (total_of_reachable w o Hreach). discriminate.
  - change confirm with (transition Confirm). rewrite transition_cases.
    destruct (edge Confirm (_state o)); intros H; inversion H.
    split; [discriminate|]. eexists. split; [reflexivity|]. cbn; auto.
  - change ship with (transition Ship). rewrite transition_cases.
    destruct (edge Ship (_state o)); intros H; inversion H.
    split; [discriminate|]. eexists. split; [reflexivity|]. cbn; auto 6.
  - change cancel with (transition Cancel). rewrite transition_cases.
    destruct (edge Cancel (_state o)); intros H; inversion H.
    split; [discriminate|]. eexists. split; [reflexivity|]. cbn; auto 7.
Qed.

Lemma methods_throw_only_their_messages_witness :
  Reachable confirmed_order
  /\ invoke CallConfirm (mkFrame sample_world confirmed_order)
     = (Throw (JsError "Cannot confirm an order that is CONFIRMED"),
        mkFrame sample_world confirmed_order)
  /\ CallConfirm <> CallCalculateTotalPrice
  /\ exists m,
       JsError "Cannot confirm an order that is CONFIRMED" = JsError m
       /\ In m (method_messages (_state confirmed_order)).
Proof.
  split; [exact Reachable_confirmed_order|].
  split; [reflexivity|].
  apply (methods_throw_only_their_messages CallConfirm sample_world
           confirmed_order
           (JsError "Cannot confirm an order that is CONFIRMED")
           (mkFrame sample_world confirmed_order)).
  - exact Reachable_confirmed_order.
  - reflexivity.
Defined.

(** ** Customer *)

(** X12: the Customer constructor refuses a name that is empty or white
    space only with "Customer name cannot be empty", drawing no identifier;
    otherwise it draws one identifier and returns a customer with that
    identifier, whose name is the trimmed argument (non-empty, no white
    space at either end) and whose last order price is null. *)
Theorem customer_constructor (name : string) (w : World) :
  if blank name
  then Customer.new name w
       = (Throw (JsError "Customer name cannot be empty"), w)
  else
    exists c,
      Customer.new name w = (Normal c, after_draw w)
      /\ Customer.id c = uuid_source w (uuid_next w)
      /\ Customer.name c = Js.trim name
      /\ blank (Customer.name c) = false
      /\ Js.trim (Customer.name c) = Customer.name c
      /\ Customer.lastOrderPrice c = None.
Proof.
  destruct (blank name) eqn:Hb; unfold Customer.new; unfold blank in Hb;
    rewrite Hb.
  - reflexivity.
  - eexists. split; [reflexivity|]. cbn.
    repeat split; [apply trim_not_blank, Hb|apply trim_idempotent].
Qed.


(** ** Histories *)

Lemma invoke_state (c : Call) (w : World) (o : t) :
  _state (this (snd (invoke c (mkFrame w o))))
  = match c, _state o with
    | CallConfirm, PENDING => CONFIRMED
    | CallShip, CONFIRMED => SHIPPED
    | CallCancel, PENDING => CANCELLED
    | CallCancel, CONFIRMED => CANCELLED
    | _, s => s
    end.
Proof.
  destruct c as [p q u| | | |]; cbn [invoke].
  - rewrite addItem_cases.
    destruct (blank p); [reflexivity|].
    destruct (q <=? 0)%float; [reflexivity|].
    destruct (permits_items (_state o)); reflexivity.
  - unfold bind.
    pose proof (calculateTotalPrice_frame (mkFrame w o)) as H.
    destruct (calculateTotalPrice (mkFrame w o)) as [[m|e] f']; cbn in *;
      subst; reflexivity.
  - change confirm with (transition Confirm). rewrite transition_cases.
    destruct o as [a b l d cur []]; reflexivity.
  - change ship with (transition Ship). rewrite transition_cases.
    destruct o as [a b l d cur []]; reflexivity.
  - change cancel with (transition Cancel). rewrite transition_cases.
    destruct o as [a b l d cur []]; reflexivity.
Qed.

Lemma shipped_history (calls : list Call) :
  forall f,
    _state (this (after calls f)) = SHIPPED ->
    match _state (this f) with
    | PENDING =>
        exists l1 l2 l3, calls = l1 ++ CallConfirm :: l2 ++ CallShip :: l3
    | CONFIRMED => exists l1 l3, calls = l1 ++ CallShip :: l3
    | SHIPPED => True
    | CANCELLED => False
    end.
Proof.
  induction calls as [|c r IH]; intros [w o] Hend.
  - cbn in Hend. cbn [this]. rewrite Hend. exact I.
  - cbn [after fold_left] in Hend.
    fold (after r (snd (invoke c (mkFrame w o)))) in Hend.
    specialize (IH _ Hend). rewrite invoke_state in IH. cbn [this].
    destruct (_state o); [| |exact I|].
    + destruct c as [p q u| | | |].
      * destruct IH as (l1 & l2 & l3 & ->).
        now exists (CallAddItem p q u :: l1), l2, l3.
      * destruct IH as (l1 & l2 & l3 & ->).
        now exists (CallCalculateTotalPrice :: l1), l2, l3.
      * destruct IH as (l1 & l3 & ->). now exists [], l1, l3.
      * destruct IH as (l1 & l2 & l3 & ->).
        now exists (CallShip :: l1), l2, l3.
      * contradiction.
    + destruct c as [p q u| | | |].
      * destruct IH as (l1 & l3 & ->).
        now exists (CallAddItem p q u :: l1), l3.
      * destruct IH as (l1 & l3 & ->).
        now exists (CallCalculateTotalPrice :: l1), l3.
      * destruct IH as (l1 & l3 & ->). now exists (CallConfirm :: l1), l3.
      * now exists [], r.
      * contradiction.
    + destruct c; exact IH.
Qed.

(** X13: an order is shipped only after it was confirmed.  If a sequence of
    calls takes an order from PENDING to SHIPPED, the sequence contains a
    call of confirm() and, later, a call of ship(). *)
Theorem shipped_only_after_confirm (calls : list Call) (f : Frame) :
  _state (this f) = PENDING ->
  _state (this (after calls f)) = SHIPPED ->
  exists l1 l2 l3, calls = l1 ++ CallConfirm :: l2 ++ CallShip :: l3.
Proof.
  intros Hstart Hend.
  pose proof (shipped_history calls f Hend) as H.
  now rewrite Hstart in H.
Qed.

Lemma shipped_only_after_confirm_witness :
  _state (this fresh_frame) = PENDING
  /\ _state (this (after [CallAddItem "P003" 1 150; CallConfirm; CallShip]
                     fresh_frame)) = SHIPPED
  /\ exists l1 l2 l3,
       [CallAddItem "P003" 1 150; CallConfirm; CallShip]
       = l1 ++ CallConfirm :: l2 ++ CallShip :: l3.
Proof.
  split; [reflexivity|].
  split; [reflexivity|].
  apply (shipped_only_after_confirm
           [CallAddItem "P003" 1 150; CallConfirm; CallShip] fresh_frame);
    reflexivity.
Defined.
